(** * The comparison-series controller of [ComparisonSeries.tsx]

    A shallow embedding of the React component [ComparisonSeries]
    (frontend/src/features/comparisonSeries/ComparisonSeries.tsx) and the
    properties of its submission handler, its dialog flag, its alternatives
    effect and its rendering gate.

    Numbers: [step] and [length] are JavaScript numbers.  [step] starts at 0
    and is only ever incremented by one, so it is modelled as an integer of
    [Z]; [length] is modelled as an integer of [Z] as well (negative values
    included), which is exact below 2^53.

    React state: a handler reads the state of the render it was created in
    (its closure) and writes through the setters into the state of the next
    render.  Handlers are therefore functions of a snapshot that act on a
    pending state.

    The file ends with the two presentational components that carry some
    logic of their own: the slider of a criterion ([CriteriaSlider]) and the
    wrapper of the video player ([PlayerWrapper] of [EntityImagery]). *)

From Stdlib Require Import ZArith Lia Ascii.
From stdpp Require Import base option list strings gmap pretty.

Local Open Scope string_scope.
Local Open Scope list_scope.

(** ** Data model *)

(** [Entity] of src/services/openapi: only [uid] is read by the controller. *)
Record Entity := { uid : string }.

Record Dialog := { title : string; messages : list string }.

(** What the promise returned by the [getAlternatives] collaborator settles
    to.  A promise that never settles is a series without
    [AlternativesEffect] event (see [Event]). *)
Inductive Promise (A : Type) :=
| Resolves (a : A)
| Rejects.
Arguments Resolves {A} a.
Arguments Rejects {A}.

(** [interface Props]; both [dialogs] and [getAlternatives] are optional.
    The keys of [dialogs] are the property names of a JavaScript object,
    that is strings. *)
Record Props := {
  dialogs : option (gmap string Dialog);
  getAlternatives : option (Promise (list Entity));
  length : Z
}.

Definition MIN_LENGTH : Z := 2.

(** The five [useState] cells of the component. *)
Record SeriesState := {
  step : Z;
  dialogOpen : bool;
  refreshLeft : bool;
  alternatives : list Entity;
  comparisonsMade : list string
}.

(** The initial values given to [useState]. *)
Definition initialState : SeriesState :=
  {| step := 0; dialogOpen := true; refreshLeft := false;
     alternatives := []; comparisonsMade := [] |}.

(** The object returned by [afterSubmitCallback]. *)
Module NextStep.
Record t := { uid : string; refreshLeft : bool }.
End NextStep.

Inductive Error :=
| EmptyPoolError
| FetchFailure.

Inductive Outcome (A : Type) :=
| Return (a : A)
| Throw (e : Error).
Arguments Return {A} a.
Arguments Throw {A} e.

(** Calls made to the collaborators of the controller, in order. *)
Inductive Call :=
| CallGetAlternatives
| CallSelectRandomEntity (pool : list Entity) (exclude : list string).

(** What a handler acts on: the state of the next render and the log of the
    collaborator calls. *)
Record World := { pending : SeriesState; calls : list Call }.

(** ** Handlers: state, log and exceptions

    A thrown exception leaves in place the state updates made before it, as
    in JavaScript. *)
Definition Handler (A : Type) : Type := World -> Outcome A * World.

Definition ret {A} (a : A) : Handler A := fun w => (Return a, w).

Definition bind {A B} (k : A -> Handler B) (m : Handler A) : Handler B :=
  fun w =>
    match m w with
    | (Return a, w') => k a w'
    | (Throw e, w') => (Throw e, w')
    end.

(** The notations [x ← m; k] and [m;; k] of stdpp. *)
#[global] Instance Handler_ret : MRet Handler := @ret.
#[global] Instance Handler_bind : MBind Handler := @bind.

Definition when (b : bool) (m : Handler unit) : Handler unit :=
  if b then m else ret tt.

Definition update (f : SeriesState -> SeriesState) : Handler unit :=
  fun w => (Return tt, {| pending := f (pending w); calls := calls w |}).

Definition log (c : Call) : Handler unit :=
  fun w => (Return tt, {| pending := pending w; calls := calls w ++ [c] |}).

Definition lift {A} (o : Outcome A) : Handler A := fun w => (o, w).

Definition setStep (n : Z) : Handler unit :=
  update (fun s => {| step := n; dialogOpen := dialogOpen s;
                      refreshLeft := refreshLeft s;
                      alternatives := alternatives s;
                      comparisonsMade := comparisonsMade s |}).

Definition setDialogOpen (b : bool) : Handler unit :=
  update (fun s => {| step := step s; dialogOpen := b;
                      refreshLeft := refreshLeft s;
                      alternatives := alternatives s;
                      comparisonsMade := comparisonsMade s |}).

Definition setRefreshLeft (b : bool) : Handler unit :=
  update (fun s => {| step := step s; dialogOpen := dialogOpen s;
                      refreshLeft := b;
                      alternatives := alternatives s;
                      comparisonsMade := comparisonsMade s |}).

Definition setAlternatives (alts : list Entity) : Handler unit :=
  update (fun s => {| step := step s; dialogOpen := dialogOpen s;
                      refreshLeft := refreshLeft s;
                      alternatives := alts;
                      comparisonsMade := comparisonsMade s |}).

Definition setComparisonsMade (l : list string) : Handler unit :=
  update (fun s => {| step := step s; dialogOpen := dialogOpen s;
                      refreshLeft := refreshLeft s;
                      alternatives := alternatives s;
                      comparisonsMade := l |}).

(** [dialogs && n in dialogs]: the number [n] is converted to its decimal
    string and looked up among the property names.  (The prototype of a
    plain object has no property whose name is a decimal numeral.) *)
Definition hasDialog (ds : option (gmap string Dialog)) (n : Z) : bool :=
  match ds with
  | Some d => bool_decide (is_Some (d !! pretty n))
  | None => false
  end.

(** ** The controller, over the two functions imported from src/utils/entity *)

Section Controller.

Variable alreadyComparedWith : string -> list string -> list string.
(** The last argument is the outcome of the random draw made by the call. *)
Variable selectRandomEntity :
  list Entity -> list string -> nat -> Outcome Entity.

Definition callSelectRandomEntity
    (pool : list Entity) (exclude : list string) (draw : nat)
  : Handler Entity :=
  log (CallSelectRandomEntity pool exclude);;
  lift (selectRandomEntity pool exclude draw).

(** [afterSubmitCallback], in the closure of a render with state [st]. *)
Definition afterSubmitCallback (props : Props) (st : SeriesState)
    (uidA uidB : string) (draw : nat) : Handler NextStep.t :=
  let newStep := (step st + 1)%Z in
  when (step st <? length props)%Z (setStep newStep);;
  let newComparisons := comparisonsMade st ++ [uidA +:+ "/" +:+ uidB] in
  setComparisonsMade newComparisons;;
  let keptUid := if refreshLeft st then uidB else uidA in
  let alreadyCompared := alreadyComparedWith keptUid newComparisons in
  uid ← (if (0 <? List.length (alternatives st))%nat
         then e ← callSelectRandomEntity (alternatives st)
                    (alreadyCompared ++ [keptUid]) draw;
              ret (uid e)
         else ret "");
  let nextStep := {| NextStep.uid := uid;
                     NextStep.refreshLeft := refreshLeft st |} in
  setRefreshLeft (negb (refreshLeft st));;
  when (hasDialog (dialogs props) newStep) (setDialogOpen true);;
  ret nextStep.

Definition closeDialog : Handler unit := setDialogOpen false.

(** [await] of a promise inside an async function: a rejection is thrown
    into the async function. *)
Definition await {A} (p : Promise A) : Handler A :=
  match p with
  | Resolves a => ret a
  | Rejects => lift (Throw FetchFailure)
  end.

(** [getAlternativesAsync] of the effect.  The async function reads no
    state between its call of [getAlternatives] and its continuation, so
    it is run in one piece, at the time the promise settles. *)
Definition getAlternativesAsync (props : Props) : Handler unit :=
  match getAlternatives props with
  | Some fetch =>
      alts ← (log CallGetAlternatives;; await fetch);
      when (0 <? List.length alts)%nat (setAlternatives alts)
  | None => ret tt
  end.

(** The effect calls [getAlternativesAsync()] and drops its promise: only
    the state it has written remains. *)
Definition alternativesEffect (props : Props) (w : World) : World :=
  (getAlternativesAsync props w).2.

(** *** Rendering *)

Definition Callback : Type := string -> string -> nat -> Handler NextStep.t.

Inductive Element :=
| DialogBox (dialog : Dialog) (open : bool) (onClose : Handler unit)
| Stepper (activeStep : Z) (steps : list (list string))
| Comparison (callback : option Callback).

(** One step per [i] of [0 .. length - 1], with its label. *)
Definition generateSteps (len : Z) : list (list string) :=
  (fun i : Z => (if (i =? 0)%Z then ["start"] else [])
                ++ (if (i =? len - 1)%Z then ["end!"] else []))
    <$> seqZ 0 len.

(** The elements returned by the component for the state [st]. *)
Definition render (props : Props) (st : SeriesState) : list Element :=
  if (MIN_LENGTH <=? length props)%Z then
    match dialogs props with
    | Some d =>
        match d !! pretty (step st) with
        | Some dlg => [DialogBox dlg (dialogOpen st) closeDialog]
        | None => []
        end
    | None => []
    end
    ++ [Stepper (step st) (generateSteps (length props));
        Comparison (Some (afterSubmitCallback props st))]
  else [Comparison None].

(** *** Series of events *)

(** What the controller is driven by: a submission ([draw] is the random
    draw of that call), the closing of the dialog, and the run of the
    alternatives effect. *)
Inductive Event :=
| Submit (uidA uidB : string) (draw : nat)
| CloseDialog
| AlternativesEffect.

Inductive Output :=
| Returned (next : NextStep.t)
| Raised (e : Error)
| Silent.

Definition observe (r : Outcome NextStep.t * World) : Output * World :=
  match r with
  | (Return next, w) => (Returned next, w)
  | (Throw e, w) => (Raised e, w)
  end.

(** One event, handled in the closure of the render of the current state. *)
Definition handle (props : Props) (w : World) (ev : Event)
  : Output * World :=
  match ev with
  | Submit uidA uidB draw =>
      observe (afterSubmitCallback props (pending w) uidA uidB draw w)
  | CloseDialog => (Silent, (closeDialog w).2)
  | AlternativesEffect => (Silent, alternativesEffect props w)
  end.

Fixpoint run (props : Props) (evs : list Event) (w : World)
  : list Output * World :=
  match evs with
  | [] => ([], w)
  | ev :: evs' =>
      let (o, w') := handle props w ev in
      let (os, w'') := run props evs' w' in
      (o :: os, w'')
  end.

(** *** The user in front of the rendered elements *)

Inductive UserAction :=
| SubmitsComparison (uidA uidB : string) (draw : nat)
| ClosesDialog.

Fixpoint submitCallback (view : list Element) : option Callback :=
  match view with
  | [] => None
  | Comparison cb :: _ => cb
  | _ :: view' => submitCallback view'
  end.

Fixpoint closeCallback (view : list Element) : option (Handler unit) :=
  match view with
  | [] => None
  | DialogBox _ _ onClose :: _ => Some onClose
  | _ :: view' => closeCallback view'
  end.

(** Modelled from the spec: the [Comparison] widget
    (src/features/comparisons/Comparison) is missing.  On each submitted
    comparison it calls the submission handler it was given, and nothing of
    the controller when it was given none; the dialog box calls [onClose]. *)
Definition act (props : Props) (w : World) (a : UserAction)
  : Output * World :=
  match a with
  | SubmitsComparison uidA uidB draw =>
      match submitCallback (render props (pending w)) with
      | Some cb => observe (cb uidA uidB draw w)
      | None => (Silent, w)
      end
  | ClosesDialog =>
      match closeCallback (render props (pending w)) with
      | Some onClose => (Silent, (onClose w).2)
      | None => (Silent, w)
      end
  end.

Fixpoint interact (props : Props) (actions : list UserAction) (w : World)
  : list Output * World :=
  match actions with
  | [] => ([], w)
  | a :: actions' =>
      let (o, w') := act props w a in
      let (os, w'') := interact props actions' w' in
      (o :: os, w'')
  end.

End Controller.

(** The component when it mounts: initial state, no call made yet. *)
Definition mount : World := {| pending := initialState; calls := [] |}.

(** ** The functions of src/utils/entity *)

Module entity.

(** Modelled from the spec: src/utils/entity is missing.  The two members
    of the key [uidA/uidB] of a pair, cut at its first slash. *)
Fixpoint members (key : string) : string * string :=
  match key with
  | EmptyString => ("", "")
  | String c rest =>
      if Ascii.eqb c "/"%char then ("", rest)
      else let (a, b) := members rest in (String c a, b)
  end.

(** Modelled from the spec: src/utils/entity is missing.  Scans the
    history; for every pair containing [uid], adds the other member of the
    pair to the result; the result is empty when [uid] never appears. *)
Definition alreadyComparedWith (uid : string) (history : list string)
  : list string :=
  omap (fun key =>
          let (a, b) := members key in
          if String.eqb a uid then Some b
          else if String.eqb b uid then Some a
          else None) history.

(** Modelled from the spec: src/utils/entity is missing.  The choice in a
    list, with the random draw as an argument: every position is selected by
    the same number of draws of any range [0 .. k * length l - 1]. *)
Definition pick (l : list Entity) (draw : nat) : Outcome Entity :=
  match l !! (draw mod List.length l)%nat with
  | Some e => Return e
  | None => Throw EmptyPoolError
  end.

(** Modelled from the spec: src/utils/entity is missing.  Computes the
    subset of [pool] whose [uid] is not in [excluded]; if that subset is
    empty, selection falls back to choosing from the full [pool]; fails
    with the empty pool error if [pool] has zero entities. *)
Definition selectRandomEntity (pool : list Entity) (excluded : list string)
    (draw : nat) : Outcome Entity :=
  match pool with
  | [] => Throw EmptyPoolError
  | _ :: _ =>
      match filter (fun e => uid e ∉ excluded) pool with
      | [] => pick pool draw
      | eligible => pick eligible draw
      end
  end.

End entity.

(** A series of the controller as the repository links it, from its mount. *)
Definition series (props : Props) (evs : list Event) : list Output * World :=
  run entity.alreadyComparedWith entity.selectRandomEntity props evs mount.

(** ** The transition of a submission, in closed form *)

(** The key recorded for a submitted pair. *)
Definition pairKey (uidA uidB : string) : string := uidA +:+ "/" +:+ uidB.

(** The state after a submission that returns: steps 1, 2, 6 and 7 of the
    Submit transition of the specification. *)
Definition submitted (props : Props) (st : SeriesState) (uidA uidB : string)
  : SeriesState :=
  {| step := if (step st <? length props)%Z then step st + 1 else step st;
     dialogOpen := if hasDialog (dialogs props) (step st + 1)
                   then true else dialogOpen st;
     refreshLeft := negb (refreshLeft st);
     alternatives := alternatives st;
     comparisonsMade := comparisonsMade st ++ [pairKey uidA uidB] |}.

(** The state left by a submission whose sampling throws: only steps 1 and
    2 have been done. *)
Definition interrupted (props : Props) (st : SeriesState)
    (uidA uidB : string) : SeriesState :=
  {| step := if (step st <? length props)%Z then step st + 1 else step st;
     dialogOpen := dialogOpen st;
     refreshLeft := refreshLeft st;
     alternatives := alternatives st;
     comparisonsMade := comparisonsMade st ++ [pairKey uidA uidB] |}.

(** The entity kept on screen and the exclusion list of a submission. *)
Definition keptUid (st : SeriesState) (uidA uidB : string) : string :=
  if refreshLeft st then uidB else uidA.

Definition exclusion (alreadyComparedWith : string -> list string -> list string)
    (st : SeriesState) (uidA uidB : string) : list string :=
  alreadyComparedWith (keptUid st uidA uidB)
    (comparisonsMade st ++ [pairKey uidA uidB])
  ++ [keptUid st uidA uidB].

(** The number of submissions among events. *)
Fixpoint submissions (evs : list Event) : nat :=
  match evs with
  | [] => 0
  | Submit _ _ _ :: evs' => S (submissions evs')
  | _ :: evs' => submissions evs'
  end.

(** The contract of the sampler: a result whenever the pool is not empty,
    and no empty pool error on a pool that is not empty. *)

Definition returnsOnNonEmpty
    (sampler : list Entity -> list string -> nat -> Outcome Entity) : Prop :=
  ∀ pool excluded draw, pool ≠ [] ->
    ∃ e, sampler pool excluded draw = Return e.

Definition raisesOnlyOnEmpty
    (sampler : list Entity -> list string -> nat -> Outcome Entity) : Prop :=
  ∀ pool excluded draw,
    sampler pool excluded draw = Throw EmptyPoolError -> pool = [].

(** A call of the sampler is well-formed when its pool is not empty. *)
Definition wellFormedCall (c : Call) : Prop :=
  match c with
  | CallSelectRandomEntity pool _ => pool ≠ []
  | CallGetAlternatives => True
  end.

(** An output of a series in which nothing is substituted: a submission
    returns the empty uid, and nothing is raised. *)
Definition noSubstitution (o : Output) : Prop :=
  match o with
  | Returned next => NextStep.uid next = ""
  | Raised _ => False
  | Silent => True
  end.

(** ** Configurations of the scenarios *)

Definition E1 : Entity := {| uid := "E1" |}.
Definition E2 : Entity := {| uid := "E2" |}.
Definition E3 : Entity := {| uid := "E3" |}.

Definition welcome : Dialog :=
  {| title := "Welcome"; messages := ["Compare the two videos."] |}.

(** Scenario 1: length 2, no dialogs, a pool of three entities. *)
Definition scenario1 : Props :=
  {| dialogs := None; getAlternatives := Some (Resolves [E1; E2; E3]);
     length := 2 |}.

(** Scenario 2: the fetch resolves to an empty pool. *)
Definition scenario2 : Props :=
  {| dialogs := None; getAlternatives := Some (Resolves []); length := 2 |}.

(** Scenario 3: one dialog, configured for step 1. *)
Definition scenario3 : Props :=
  {| dialogs := Some {[ "1" := welcome ]};
     getAlternatives := Some (Resolves [E1; E2; E3]); length := 3 |}.

(** Scenario 4: a length below [MIN_LENGTH]. *)
Definition scenario4 : Props :=
  {| dialogs := Some {[ "0" := welcome ]};
     getAlternatives := Some (Resolves [E1; E2; E3]); length := 1 |}.

(** Scenario 5: a pool of two entities, compared with each other. *)
Definition scenario5 : Props :=
  {| dialogs := None; getAlternatives := Some (Resolves [E1; E2]);
     length := 5 |}.

(** A series whose fetch rejects, and one without the collaborator. *)
Definition rejectedFetch : Props :=
  {| dialogs := None; getAlternatives := Some Rejects; length := 2 |}.

Definition noCollaborator : Props :=
  {| dialogs := Some {[ "0" := welcome ]}; getAlternatives := None;
     length := 2 |}.

(** ** Observations of a series *)

(** The keys recorded by the submissions among events, in order. *)
Fixpoint keysOf (evs : list Event) : list string :=
  match evs with
  | [] => []
  | Submit uidA uidB _ :: evs' => pairKey uidA uidB :: keysOf evs'
  | _ :: evs' => keysOf evs'
  end.

(** Whether the alternatives effect runs among events. *)
Fixpoint effectRuns (evs : list Event) : bool :=
  match evs with
  | [] => false
  | AlternativesEffect :: _ => true
  | _ :: evs' => effectRuns evs'
  end.

(** Events without the closings of the dialog. *)
Fixpoint withoutCloseDialog (evs : list Event) : list Event :=
  match evs with
  | [] => []
  | CloseDialog :: evs' => withoutCloseDialog evs'
  | ev :: evs' => ev :: withoutCloseDialog evs'
  end.

(** The outputs of the submissions: those of the other events are silent. *)
Fixpoint answers (os : list Output) : list Output :=
  match os with
  | [] => []
  | Silent :: os' => answers os'
  | o :: os' => o :: answers os'
  end.

(** The sides returned by the submissions, in order. *)
Fixpoint refreshSides (os : list Output) : list bool :=
  match os with
  | [] => []
  | Returned next :: os' => NextStep.refreshLeft next :: refreshSides os'
  | _ :: os' => refreshSides os'
  end.

(** [n] sides in alternation, from [b]. *)
Fixpoint alternating (b : bool) (n : nat) : list bool :=
  match n with
  | O => []
  | S n' => b :: alternating (negb b) n'
  end.

(** The number of calls of the sampler in a log. *)
Fixpoint samplings (cs : list Call) : nat :=
  match cs with
  | [] => 0
  | CallSelectRandomEntity _ _ :: cs' => S (samplings cs')
  | _ :: cs' => samplings cs'
  end.

(** Two worlds that differ at most in the dialog flag. *)
Definition sameButDialog (w1 w2 : World) : Prop :=
  step (pending w1) = step (pending w2)
  ∧ refreshLeft (pending w1) = refreshLeft (pending w2)
  ∧ alternatives (pending w1) = alternatives (pending w2)
  ∧ comparisonsMade (pending w1) = comparisonsMade (pending w2)
  ∧ calls w1 = calls w2.

(** A uid without slash. *)
Fixpoint slashFree (s : string) : bool :=
  match s with
  | EmptyString => true
  | String c rest => negb (Ascii.eqb c "/"%char) && slashFree rest
  end.

(** ** The slider of a criterion: [CriteriaSlider] *)

Module CriteriaSlider.

Definition SLIDER_MIN_STEP : Z := -10.
Definition SLIDER_MAX_STEP : Z := 10.
Definition SLIDER_STEP : Z := 1.

(** The integers on which the double arithmetic of [computeMedian] is
    exact: up to [2 ^ 52] in magnitude, so that [max - min] and [2 * step]
    are integers of magnitude at most [2 ^ 53]. *)
Definition MAX_EXACT : Z := 2 ^ 52.

Definition exactOperand (n : Z) : bool :=
  (- MAX_EXACT <=? n)%Z && (n <=? MAX_EXACT)%Z.

(** The number [computeMedian] returns: an integer, the index of a mark; a
    number that is not an integer (a fraction, an infinity, NaN); or the
    rounded result of operands beyond the exact range, which is left out of
    the model. *)
Inductive Median :=
| Mark (index : Z)
| NoMark
| Rounded.

(** [computeMedian]: [(max - min) / (2 * step)] on JavaScript numbers, for
    integer arguments.  Within the exact range the difference and the
    product are computed exactly and the division is correctly rounded: it
    returns the quotient when [2 * step] is not zero and divides
    [max - min], and a number that is not an integer otherwise (a quotient
    [a / b] that is not an integer, with [|a| <= 2 ^ 53] and [|b| >= 2], is
    further from every integer than half the spacing of the doubles
    there). *)
Definition computeMedian (min max step : Z) : Median :=
  if exactOperand min && exactOperand max && exactOperand step then
    if negb (2 * step =? 0)%Z && ((max - min) mod (2 * step) =? 0)%Z
    then Mark ((max - min) / (2 * step))%Z
    else NoMark
  else Rounded.

Definition neutralPos : Median :=
  computeMedian SLIDER_MIN_STEP SLIDER_MAX_STEP SLIDER_STEP.

(** What the component reads of a criterion of the current poll; an
    [optional] that is absent is falsy. *)
Record Criterion := { optional : bool }.

(** The properties of the component; [criteriaValue] is a number (a score,
    an integer as the slider moves by steps of 1) or [undefined], and
    [handleSliderChange] is what the handlers below call. *)
Record Props := {
  criteria : string;
  criteriaLabel : string;
  criteriaValue : option Z;
  disabled : bool
}.

Record Checkbox := { checked : bool; checkboxDisabled : bool }.

Record Slider := { value : Z; sliderDisabled : bool }.

(** What is rendered: the icon (its source), the chip of a skipped
    criterion, the checkbox when there is one, and the slider. *)
Record View := {
  icon : option string;
  skippedChip : bool;
  checkbox : option Checkbox;
  slider : Slider
}.

Definition isUndefined (v : option Z) : bool :=
  match v with
  | None => true
  | Some _ => false
  end.

(** [criteriaValue || 0]: [undefined] and [0] are falsy. *)
Definition orZero (v : option Z) : Z :=
  match v with
  | Some n => if (n =? 0)%Z then 0%Z else n
  | None => 0%Z
  end.

(** [criteriaByName[criteria]?.optional]. *)
Definition isOptional (criteriaByName : gmap string Criterion)
    (name : string) : bool :=
  match criteriaByName !! name with
  | Some c => optional c
  | None => false
  end.

Definition render (criteriaByName : gmap string Criterion) (p : Props)
  : View :=
  {| icon := if String.eqb (criteria p) "largely_recommended" then None
             else Some ("/svg/" +:+ criteria p +:+ ".svg");
     skippedChip := isUndefined (criteriaValue p);
     checkbox :=
       if isOptional criteriaByName (criteria p)
          || isUndefined (criteriaValue p)
       then Some {| checked := negb (isUndefined (criteriaValue p));
                    checkboxDisabled := disabled p |}
       else None;
     slider := {| value := orZero (criteriaValue p);
                  sliderDisabled :=
                    disabled p || isUndefined (criteriaValue p) |} |}.

(** The [onChange] of the checkbox and of the slider: the arguments they
    call [handleSliderChange] with. *)
Definition checkboxOnChange (p : Props) (targetChecked : bool)
  : string * option Z :=
  (criteria p, if targetChecked then Some 0%Z else None).

Definition sliderOnChange (p : Props) (score : Z) : string * option Z :=
  (criteria p, Some score).

(** The properties of the next render, when the parent passes the value it
    was called with. *)
Definition withValue (p : Props) (v : option Z) : Props :=
  {| criteria := criteria p; criteriaLabel := criteriaLabel p;
     criteriaValue := v; disabled := disabled p |}.

End CriteriaSlider.

(** ** The imagery of an entity: [PlayerWrapper] of [EntityImagery] *)

Module PlayerWrapper.

Section WithClock.

(** [convertDurationToClockDuration] of src/utils/video. *)
Variable convertDurationToClockDuration : Z -> string.

(** [duration ? convertDurationToClockDuration(duration) : null]: an absent
    duration and [0] are falsy. *)
Definition formattedDuration (duration : option Z) : option string :=
  match duration with
  | Some d =>
      if (d =? 0)%Z then None else Some (convertDurationToClockDuration d)
  | None => None
  end.

(** [isDurationVisible && formattedDuration && <Box>..</Box>]: the text of
    the overlay when it is rendered; the empty string is falsy. *)
Definition overlay (isDurationVisible : bool) (duration : option Z)
  : option string :=
  if isDurationVisible then
    match formattedDuration duration with
    | Some text => if String.eqb text "" then None else Some text
    | None => None
    end
  else None.

End WithClock.

(** [useState(true)] and the [onClick] of the wrapper. *)
Definition initiallyVisible : bool := true.

Definition onClick (isDurationVisible : bool) : bool := false.

(** The state after [n] clicks. *)
Definition afterClicks (n : nat) : bool := Nat.iter n onClick initiallyVisible.

End PlayerWrapper.

Ltac unfold_handler :=
  unfold afterSubmitCallback, callSelectRandomEntity, closeDialog,
    alternativesEffect, getAlternativesAsync, await, when, setStep,
    setDialogOpen, setRefreshLeft, setAlternatives, setComparisonsMade,
    update, log, lift, mbind, mret, Handler_bind, Handler_ret, bind, ret.

(** ** Facts shared by the theorems *)

Section ControllerFacts.

Variable alreadyComparedWith : string -> list string -> list string.
Variable selectRandomEntity :
  list Entity -> list string -> nat -> Outcome Entity.

Local Abbreviation callback :=
  (afterSubmitCallback alreadyComparedWith selectRandomEntity).
Local Abbreviation handled := (handle alreadyComparedWith selectRandomEntity).
Local Abbreviation ran := (run alreadyComparedWith selectRandomEntity).
Local Abbreviation rendered :=
  (render alreadyComparedWith selectRandomEntity).
Local Abbreviation interacted :=
  (interact alreadyComparedWith selectRandomEntity).

Lemma handle_Submit props w uidA uidB draw :
  handled props w (Submit uidA uidB draw) =
  let st := pending w in
  match alternatives st with
  | [] =>
      (Returned {| NextStep.uid := "";
                   NextStep.refreshLeft := refreshLeft st |},
       {| pending := submitted props st uidA uidB; calls := calls w |})
  | pool =>
      let excluded := exclusion alreadyComparedWith st uidA uidB in
      let log := calls w ++ [CallSelectRandomEntity pool excluded] in
      match selectRandomEntity pool excluded draw with
      | Return e =>
          (Returned {| NextStep.uid := uid e;
                       NextStep.refreshLeft := refreshLeft st |},
           {| pending := submitted props st uidA uidB; calls := log |})
      | Throw err =>
          (Raised err,
           {| pending := interrupted props st uidA uidB; calls := log |})
      end
  end.
Proof.
  destruct w as [[s d r alts cm] cs].
  unfold handle, observe, submitted, interrupted, exclusion, keptUid, pairKey.
  unfold_handler. cbn [pending calls step dialogOpen refreshLeft alternatives comparisonsMade].
  destruct alts as [|e alts]; cbn [List.length Nat.ltb Nat.leb].
  - destruct (s <? length props)%Z, (hasDialog (dialogs props) (s + 1)); reflexivity.
  - destruct (s <? length props)%Z; cbn;
    destruct (selectRandomEntity _ _ _); cbn;
    destruct (hasDialog (dialogs props) (s + 1)); reflexivity.
Qed.

Lemma run_cons props ev evs w :
  ran props (ev :: evs) w =
  ((handled props w ev).1 :: (ran props evs (handled props w ev).2).1,
   (ran props evs (handled props w ev).2).2).
Proof.
  cbn [run]. destruct (handle _ _ props w ev) as [o w'].
  cbn [fst snd]. destruct (run _ _ props evs w'). reflexivity.
Qed.

Lemma handle_CloseDialog props w :
  handled props w CloseDialog =
  (Silent,
   {| pending :=
        {| step := step (pending w); dialogOpen := false;
           refreshLeft := refreshLeft (pending w);
           alternatives := alternatives (pending w);
           comparisonsMade := comparisonsMade (pending w) |};
      calls := calls w |}).
Proof. reflexivity. Qed.

Lemma alternativesEffect_eq props w :
  alternativesEffect props w =
  match getAlternatives props with
  | None => w
  | Some fetch =>
      {| pending :=
           match fetch with
           | Resolves (e :: alts) =>
               {| step := step (pending w); dialogOpen := dialogOpen (pending w);
                  refreshLeft := refreshLeft (pending w);
                  alternatives := e :: alts;
                  comparisonsMade := comparisonsMade (pending w) |}
           | _ => pending w
           end;
         calls := calls w ++ [CallGetAlternatives] |}
  end.
Proof.
  unfold_handler. destruct (getAlternatives props) as [[[|e alts]|]|];
    destruct w; reflexivity.
Qed.

(** The step of the state left by a submission, returned or thrown. *)
Lemma handle_Submit_step props w uidA uidB draw :
  step (pending (handled props w (Submit uidA uidB draw)).2) =
  if (step (pending w) <? length props)%Z
  then (step (pending w) + 1)%Z else step (pending w).
Proof.
  rewrite handle_Submit. cbv zeta.
  destruct (alternatives (pending w)); [reflexivity|].
  destruct (selectRandomEntity _ _ _); reflexivity.
Qed.

Lemma handle_Submit_comparisonsMade props w uidA uidB draw :
  comparisonsMade (pending (handled props w (Submit uidA uidB draw)).2) =
  comparisonsMade (pending w) ++ [pairKey uidA uidB].
Proof.
  rewrite handle_Submit. cbv zeta.
  destruct (alternatives (pending w)); [reflexivity|].
  destruct (selectRandomEntity _ _ _); reflexivity.
Qed.

(** *** The result of a submission *)

(** C1.  A submission keeps [uidB] when [refreshLeft] is set and [uidA]
    otherwise, excludes what [alreadyComparedWith] returns for the kept uid
    on the history extended with the new pair, plus the kept uid itself,
    calls the sampler with exactly that exclusion list when and only when
    the pool is not empty, and returns the sampled uid (the empty string when
    nothing was sampled) with the value [refreshLeft] had at call time. *)
Theorem afterSubmitCallback_result props st uidA uidB draw w :
  let kept := if refreshLeft st then uidB else uidA in
  let excluded :=
    alreadyComparedWith kept (comparisonsMade st ++ [uidA +:+ "/" +:+ uidB])
    ++ [kept] in
  let r := callback props st uidA uidB draw w in
  match alternatives st with
  | [] =>
      r.1 = Return {| NextStep.uid := "";
                      NextStep.refreshLeft := refreshLeft st |}
      ∧ calls r.2 = calls w
  | pool =>
      calls r.2 = calls w ++ [CallSelectRandomEntity pool excluded]
      ∧ r.1 = match selectRandomEntity pool excluded draw with
              | Return e =>
                  Return {| NextStep.uid := uid e;
                            NextStep.refreshLeft := refreshLeft st |}
              | Throw err => Throw err
              end
  end.
Proof.
  cbv zeta. unfold_handler.
  destruct (alternatives st) as [|e alts]; cbn [List.length Nat.ltb Nat.leb].
  - destruct (step st <? length props)%Z,
      (hasDialog (dialogs props) (step st + 1)); split; reflexivity.
  - destruct (step st <? length props)%Z; cbn;
      destruct (selectRandomEntity _ _ _); cbn;
      destruct (hasDialog (dialogs props) (step st + 1)); split; reflexivity.
Qed.

(** *** The step counter *)

Lemma handled_step_le props w ev :
  (step (pending w) <= length props)%Z ->
  (step (pending (handled props w ev).2) <= length props)%Z.
Proof.
  intros Hle. destruct ev as [uidA uidB draw| |].
  - rewrite handle_Submit_step.
    destruct (Z.ltb_spec (step (pending w)) (length props)); lia.
  - exact Hle.
  - cbn. rewrite alternativesEffect_eq.
    destruct (getAlternatives props) as [[[|e alts]|]|]; exact Hle.
Qed.

Lemma ran_step_le props evs : ∀ w,
  (step (pending w) <= length props)%Z ->
  (step (pending (ran props evs w).2) <= length props)%Z.
Proof.
  induction evs as [|ev evs IH]; intros w Hle; [exact Hle|].
  rewrite run_cons. cbn [snd]. apply IH, handled_step_le, Hle.
Qed.

(** C2.  With a length that is not negative, the step counter never exceeds
    the length, whatever the events of the series.  A submission made while
    [step < length] advances the step by one; one made while
    [length <= step] leaves the step as it is, and still appends the pair to
    the history and still samples a replacement in a pool that is not
    empty. *)
Theorem step_never_exceeds_length props (Hlen : (0 <= length props)%Z) :
  (∀ evs, (step (pending (ran props evs mount).2) <= length props)%Z)
  ∧ ∀ w uidA uidB draw,
      let st := pending w in
      let r := handled props w (Submit uidA uidB draw) in
      ((step st < length props)%Z -> step (pending r.2) = (step st + 1)%Z)
      ∧ ((length props <= step st)%Z ->
         step (pending r.2) = step st
         ∧ comparisonsMade (pending r.2)
           = comparisonsMade st ++ [uidA +:+ "/" +:+ uidB]
         ∧ match alternatives st with
           | [] => r.1 = Returned {| NextStep.uid := "";
                                     NextStep.refreshLeft := refreshLeft st |}
           | pool =>
               let excluded := exclusion alreadyComparedWith st uidA uidB in
               calls r.2 = calls w ++ [CallSelectRandomEntity pool excluded]
               ∧ r.1 = match selectRandomEntity pool excluded draw with
                       | Return e =>
                           Returned {| NextStep.uid := uid e;
                                       NextStep.refreshLeft := refreshLeft st |}
                       | Throw err => Raised err
                       end
           end).
Proof.
  split.
  - intros evs. apply ran_step_le. exact Hlen.
  - intros w uidA uidB draw. cbv zeta. split.
    + intros Hlt. rewrite handle_Submit_step.
      destruct (Z.ltb_spec (step (pending w)) (length props)); [reflexivity|lia].
    + intros Hge. split; [|split].
      * rewrite handle_Submit_step.
        destruct (Z.ltb_spec (step (pending w)) (length props)); [lia|reflexivity].
      * apply handle_Submit_comparisonsMade.
      * rewrite handle_Submit. cbv zeta.
        destruct (alternatives (pending w)); [reflexivity|].
        destruct (selectRandomEntity _ _ _); split; reflexivity.
Qed.

Lemma handled_Submit_pending props w uidA uidB draw :
  returnsOnNonEmpty selectRandomEntity ->
  pending (handled props w (Submit uidA uidB draw)).2
  = submitted props (pending w) uidA uidB.
Proof.
  intros Hsel. rewrite handle_Submit. cbv zeta.
  destruct (alternatives (pending w)) as [|e alts]; [reflexivity|].
  destruct (Hsel (e :: alts) (exclusion alreadyComparedWith (pending w) uidA uidB)
              draw) as [x Hx]; [discriminate|].
  rewrite Hx. reflexivity.
Qed.

(** *** The refresh side *)

Lemma ran_refreshLeft props evs :
  returnsOnNonEmpty selectRandomEntity ->
  ∀ w, refreshLeft (pending (ran props evs w).2)
       = xorb (refreshLeft (pending w)) (Nat.odd (submissions evs)).
Proof.
  intros Hsel. induction evs as [|ev evs IH]; intros w.
  - cbn. by rewrite xorb_false_r.
  - rewrite run_cons. cbn [snd]. rewrite IH.
    destruct ev as [uidA uidB draw| |].
    + rewrite handled_Submit_pending by exact Hsel.
      cbn [submitted refreshLeft submissions].
      rewrite Nat.odd_succ, <- Nat.negb_odd.
      by destruct (refreshLeft (pending w)), (Nat.odd (submissions evs)).
    + reflexivity.
    + cbn [handle snd submissions]. rewrite alternativesEffect_eq.
      by destruct (getAlternatives props) as [[[|e alts]|]|].
Qed.

(** C3.  [refreshLeft] starts at [false]; every submission negates it,
    whatever the step and the length; so after the events of a series it is
    [true] exactly when the number of submissions among them is odd. *)
Theorem refreshLeft_alternates
    (Hsel : returnsOnNonEmpty selectRandomEntity) props :
  refreshLeft (pending mount) = false
  ∧ (∀ w uidA uidB draw,
       refreshLeft (pending (handled props w (Submit uidA uidB draw)).2)
       = negb (refreshLeft (pending w)))
  ∧ ∀ evs,
      refreshLeft (pending (ran props evs mount).2)
      = Nat.odd (submissions evs).
Proof.
  split; [reflexivity|]. split.
  - intros w uidA uidB draw. by rewrite handled_Submit_pending.
  - intros evs. by rewrite ran_refreshLeft.
Qed.

(** *** The empty pool *)

Lemma handled_wellFormed props w ev :
  Forall wellFormedCall (calls w) ->
  Forall wellFormedCall (calls (handled props w ev).2).
Proof.
  intros Hw. destruct ev as [uidA uidB draw| |].
  - rewrite handle_Submit. cbv zeta.
    destruct (alternatives (pending w)) as [|e alts]; [exact Hw|].
    destruct (selectRandomEntity _ _ _); cbn [snd calls];
      (apply Forall_app; split; [exact Hw|]);
      by apply Forall_singleton.
  - exact Hw.
  - cbn [handle snd]. rewrite alternativesEffect_eq.
    destruct (getAlternatives props); [|exact Hw].
    cbn [calls]. apply Forall_app; split; [exact Hw|].
    by apply Forall_singleton.
Qed.

Lemma handled_no_EmptyPoolError props w ev :
  raisesOnlyOnEmpty selectRandomEntity ->
  (handled props w ev).1 ≠ Raised EmptyPoolError.
Proof.
  intros Hraise. destruct ev as [uidA uidB draw| |]; [|discriminate..].
  rewrite handle_Submit. cbv zeta.
  destruct (alternatives (pending w)) as [|e alts]; [discriminate|].
  destruct (selectRandomEntity _ _ _) as [x|err] eqn:Hs; [discriminate|].
  cbn [fst]. intros [= ->]. by apply Hraise in Hs.
Qed.

(** C4.  With an empty pool a submission returns the empty uid and makes no
    call at all to the sampler; in any series every call of the sampler has
    a pool that is not empty; hence a sampler that raises [EmptyPoolError]
    on the empty pool only never makes a submission raise it. *)
Theorem empty_pool_skips_sampling
    (Hraise : raisesOnlyOnEmpty selectRandomEntity) props :
  (∀ w uidA uidB draw,
     alternatives (pending w) = [] ->
     handled props w (Submit uidA uidB draw)
     = (Returned {| NextStep.uid := "";
                    NextStep.refreshLeft := refreshLeft (pending w) |},
        {| pending := submitted props (pending w) uidA uidB;
           calls := calls w |}))
  ∧ (∀ evs, Forall wellFormedCall (calls (ran props evs mount).2))
  ∧ (∀ evs w, Raised EmptyPoolError ∉ (ran props evs w).1).
Proof.
  split; [|split].
  - intros w uidA uidB draw Hempty. rewrite handle_Submit. cbv zeta.
    by rewrite Hempty.
  - intros evs. generalize mount (Forall_nil_2 wellFormedCall : Forall _ (calls mount)).
    induction evs as [|ev evs IH]; intros w Hw; [exact Hw|].
    rewrite run_cons. cbn [snd]. by apply IH, handled_wellFormed.
  - intros evs. induction evs as [|ev evs IH]; intros w.
    + cbn. apply not_elem_of_nil.
    + rewrite run_cons. cbn [fst]. apply not_elem_of_cons. split.
      * intros E. by apply (handled_no_EmptyPoolError props w ev Hraise).
      * apply IH.
Qed.

(** *** The dialog flag *)

Lemma hasDialog_lookup (ds : option (gmap string Dialog)) (n : Z) :
  hasDialog ds n
  = match ds with
    | Some d => match d !! pretty n with Some _ => true | None => false end
    | None => false
    end.
Proof.
  unfold hasDialog. destruct ds as [d|]; [|reflexivity].
  destruct (d !! pretty n) as [dlg|].
  - apply bool_decide_eq_true_2. by exists dlg.
  - apply bool_decide_eq_false_2. by intros [dlg Hdlg].
Qed.

(** C6.  After a submission [dialogOpen] is set when the [dialogs] object
    has a dialog under the key of [step + 1], and is what it was before
    when there is no [dialogs] object or no dialog under that key; so closing
    the dialog and then submitting towards a step without dialog leaves it
    [false]. *)
Theorem dialogOpen_after_submit
    (Hsel : returnsOnNonEmpty selectRandomEntity) props :
  (∀ w uidA uidB draw,
     dialogOpen (pending (handled props w (Submit uidA uidB draw)).2)
     = match dialogs props with
       | Some d =>
           match d !! pretty (step (pending w) + 1)%Z with
           | Some _ => true
           | None => dialogOpen (pending w)
           end
       | None => dialogOpen (pending w)
       end)
  ∧ (∀ w uidA uidB draw,
       (∀ d, dialogs props = Some d ->
             d !! pretty (step (pending w) + 1)%Z = None) ->
       dialogOpen
         (pending (ran props [CloseDialog; Submit uidA uidB draw] w).2)
       = false).
Proof.
  split.
  - intros w uidA uidB draw. rewrite handled_Submit_pending by exact Hsel.
    cbn [submitted dialogOpen]. rewrite hasDialog_lookup.
    destruct (dialogs props) as [d|]; [|reflexivity].
    by destruct (d !! pretty (step (pending w) + 1)%Z).
  - intros w uidA uidB draw Hno. rewrite !run_cons. cbn [ran run snd].
    rewrite handled_Submit_pending by exact Hsel.
    rewrite handle_CloseDialog. cbn [snd pending submitted step dialogOpen].
    rewrite hasDialog_lookup.
    destruct (dialogs props) as [d|]; [|reflexivity].
    by rewrite (Hno d eq_refl).
Qed.

(** *** Series without alternatives *)

Lemma ran_empty_pool props :
  (∀ w, alternatives (pending w) = [] ->
        alternatives (pending (alternativesEffect props w)) = []) ->
  ∀ evs w,
    alternatives (pending w) = [] ->
    Forall (eq CallGetAlternatives) (calls w) ->
    alternatives (pending (ran props evs w).2) = []
    ∧ Forall noSubstitution (ran props evs w).1
    ∧ Forall (eq CallGetAlternatives) (calls (ran props evs w).2).
Proof.
  intros Heff. induction evs as [|ev evs IH]; intros w Hempty Hcalls.
  - cbn. auto.
  - rewrite run_cons. cbn [fst snd].
    assert (alternatives (pending (handled props w ev).2) = []
            ∧ noSubstitution (handled props w ev).1
            ∧ Forall (eq CallGetAlternatives) (calls (handled props w ev).2))
      as (Hempty' & Hout & Hcalls').
    { destruct ev as [uidA uidB draw| |].
      - rewrite handle_Submit. cbv zeta. rewrite Hempty. cbn. auto.
      - cbn. auto.
      - cbn [handle fst snd noSubstitution]. split; [by apply Heff|].
        split; [exact I|]. rewrite alternativesEffect_eq.
        destruct (getAlternatives props); [|exact Hcalls].
        cbn [calls]. apply Forall_app. split; [exact Hcalls|].
        by apply Forall_singleton. }
    destruct (IH _ Hempty' Hcalls') as (H1 & H2 & H3).
    split; [exact H1|]. split; [|exact H3]. by apply Forall_cons.
Qed.

(** C8.  The effect stores what the fetch resolves to when that is not
    empty, and otherwise leaves the state as it is, its rejection being
    dropped.  After a fetch that resolves to the empty sequence or rejects,
    the pool is empty throughout the series, no event raises anything, the
    sampler is never called and every submission returns the empty uid. *)
Theorem fetch_failure_tolerated props :
  (∀ w, pending (alternativesEffect props w)
        = match getAlternatives props with
          | Some (Resolves (e :: alts)) =>
              {| step := step (pending w);
                 dialogOpen := dialogOpen (pending w);
                 refreshLeft := refreshLeft (pending w);
                 alternatives := e :: alts;
                 comparisonsMade := comparisonsMade (pending w) |}
          | _ => pending w
          end)
  ∧ (getAlternatives props = Some (Resolves [])
     ∨ getAlternatives props = Some Rejects ->
     ∀ evs,
       alternatives (pending (ran props evs mount).2) = []
       ∧ Forall noSubstitution (ran props evs mount).1
       ∧ Forall (eq CallGetAlternatives) (calls (ran props evs mount).2)).
Proof.
  split.
  - intros w. rewrite alternativesEffect_eq.
    by destruct (getAlternatives props) as [[[|e alts]|]|].
  - intros Hfetch evs. apply ran_empty_pool; [|reflexivity|constructor].
    intros w Hempty. rewrite alternativesEffect_eq.
    by destruct Hfetch as [-> | ->].
Qed.

Lemma ran_no_collaborator props :
  getAlternatives props = None ->
  ∀ evs w,
    alternatives (pending w) = [] ->
    calls (ran props evs w).2 = calls w.
Proof.
  intros Hnone. induction evs as [|ev evs IH]; intros w Hempty; [reflexivity|].
  rewrite run_cons. cbn [snd].
  assert (alternatives (pending (handled props w ev).2) = []
          ∧ calls (handled props w ev).2 = calls w) as [Hempty' Hcalls].
  { destruct ev as [uidA uidB draw| |].
    - rewrite handle_Submit. cbv zeta. by rewrite Hempty.
    - by cbn.
    - cbn [handle snd]. rewrite alternativesEffect_eq, Hnone. auto. }
  by rewrite IH.
Qed.

(** C10.  Without the [getAlternatives] collaborator no call is made to it
    (nor to the sampler), the pool is empty throughout the series and every
    submission returns the empty uid. *)
Theorem no_collaborator_no_fetch props
    (Hnone : getAlternatives props = None) evs :
  calls (ran props evs mount).2 = []
  ∧ alternatives (pending (ran props evs mount).2) = []
  ∧ Forall noSubstitution (ran props evs mount).1.
Proof.
  split; [by apply ran_no_collaborator|].
  destruct (ran_empty_pool props) with (evs := evs) (w := mount)
    as (H1 & H2 & _); [|reflexivity|constructor|by split].
  intros w Hempty. by rewrite alternativesEffect_eq, Hnone.
Qed.

(** *** The rendering gate *)

(** C9.  Below [MIN_LENGTH] the component renders the comparison alone,
    without callback: no dialog box, no stepper; whatever the user then
    does, the controller handles nothing: its state and its log of calls
    stay as they are. *)
Theorem short_series_unmanaged props
    (Hshort : (length props < MIN_LENGTH)%Z) :
  (∀ st, rendered props st = [Comparison None])
  ∧ ∀ actions w,
      interacted props actions w = (const Silent <$> actions, w).
Proof.
  assert (∀ st, rendered props st = [Comparison None]) as Hrender.
  { intros st. unfold render.
    destruct (Z.leb_spec MIN_LENGTH (length props)); [lia|reflexivity]. }
  split; [exact Hrender|].
  induction actions as [|a actions IH]; intros w; [reflexivity|].
  cbn [interact fmap list_fmap]. unfold act at 1. rewrite Hrender.
  destruct a; cbn [submitCallback closeCallback]; by rewrite IH.
Qed.

(** *** The start of a series *)

(** C7, as the code has it.  A series starts at step 0 with an empty
    history, an empty pool, [refreshLeft] unset and [dialogOpen] set,
    whatever the dialogs; the dialog box is rendered, open, exactly when the
    length reaches [MIN_LENGTH] and a dialog is configured for step 0. *)
Theorem series_start props :
  step initialState = 0%Z
  ∧ comparisonsMade initialState = []
  ∧ alternatives initialState = []
  ∧ refreshLeft initialState = false
  ∧ dialogOpen initialState = true
  ∧ ((∃ dlg, DialogBox dlg true closeDialog ∈ rendered props initialState)
     ↔ (MIN_LENGTH <= length props)%Z
       ∧ hasDialog (dialogs props) 0 = true).
Proof.
  do 5 (split; [reflexivity|]).
  unfold render, hasDialog. cbn [step dialogOpen initialState].
  destruct (Z.leb_spec MIN_LENGTH (length props)) as [Hlen|Hlen].
  - destruct (dialogs props) as [d|].
    + destruct (d !! pretty 0%Z) as [dlg|] eqn:Hd.
      * split; [intros _|intros _; exists dlg; by left].
        split; [exact Hlen|]. apply bool_decide_eq_true. by eexists.
      * split.
        -- intros [dlg Hin]. cbn in Hin.
           apply list_elem_of_In in Hin. cbn in Hin.
           destruct Hin as [|[|[]]]; discriminate.
        -- intros [_ Hhas]. apply bool_decide_eq_true in Hhas.
           destruct Hhas; discriminate.
    + split.
      * intros [dlg Hin]. cbn in Hin.
        apply list_elem_of_In in Hin. cbn in Hin.
        destruct Hin as [|[|[]]]; discriminate.
      * intros [_ ?]; discriminate.
  - split.
    + intros [dlg Hin]. apply list_elem_of_In in Hin. cbn in Hin.
      destruct Hin as [|[]]; discriminate.
    + intros [? _]. lia.
Qed.

End ControllerFacts.

(** ** The sampler of src/utils/entity *)

Lemma pick_lookup (l : list Entity) draw :
  l ≠ [] ->
  ∃ e, entity.pick l draw = Return e
       ∧ l !! (draw mod List.length l)%nat = Some e.
Proof.
  intros Hl. unfold entity.pick.
  destruct (lookup_lt_is_Some_2 l (draw mod List.length l)%nat) as [e He].
  - apply Nat.mod_upper_bound. by destruct l.
  - rewrite He. by exists e.
Qed.

Lemma selectRandomEntity_returns :
  returnsOnNonEmpty entity.selectRandomEntity.
Proof.
  intros pool excluded draw Hpool. unfold entity.selectRandomEntity.
  destruct pool as [|x pool]; [done|].
  destruct (filter _ (x :: pool)) as [|y eligible].
  - destruct (pick_lookup (x :: pool) draw) as (e & He & _); eauto.
  - destruct (pick_lookup (y :: eligible) draw) as (e & He & _); eauto.
Qed.

Lemma selectRandomEntity_raises :
  raisesOnlyOnEmpty entity.selectRandomEntity.
Proof.
  intros pool excluded draw Hthrow.
  destruct pool as [|x pool]; [reflexivity|].
  destruct (selectRandomEntity_returns (x :: pool) excluded draw) as [e He];
    [done|congruence].
Qed.

(** C5.  On a pool that is not empty the sampler returns an entity of the
    pool, for every exclusion list and every draw.  When every entity of
    the pool is excluded, the result is the entity the draw selects in the
    full pool; when some entity is not excluded, the result is not
    excluded. *)
Theorem selectRandomEntity_falls_back pool excluded draw
    (Hpool : pool ≠ []) :
  ∃ e, entity.selectRandomEntity pool excluded draw = Return e
       ∧ e ∈ pool
       ∧ ((∀ x, x ∈ pool -> uid x ∈ excluded) ->
          pool !! (draw mod List.length pool)%nat = Some e)
       ∧ ((∃ x, x ∈ pool ∧ uid x ∉ excluded) -> uid e ∉ excluded).
Proof.
  unfold entity.selectRandomEntity.
  destruct pool as [|x pool]; [done|].
  destruct (filter _ (x :: pool)) as [|y eligible] eqn:Hf.
  - destruct (pick_lookup (x :: pool) draw) as (e & He & Hl); [done|].
    exists e. split; [exact He|]. split; [by eapply list_elem_of_lookup_2|].
    split; [by intros _|].
    intros (z & Hz & Hnot).
    assert (z ∈ filter (λ e0, uid e0 ∉ excluded) (x :: pool)) as Hin
      by (by apply list_elem_of_filter).
    rewrite Hf in Hin. by apply elem_of_nil in Hin.
  - destruct (pick_lookup (y :: eligible) draw) as (e & He & Hl); [done|].
    assert (e ∈ filter (λ e0, uid e0 ∉ excluded) (x :: pool)) as Hin
      by (rewrite Hf; by eapply list_elem_of_lookup_2).
    apply list_elem_of_filter in Hin as [Hnot Hin].
    exists e. split; [exact He|]. split; [exact Hin|].
    split; [|by intros _].
    intros Hall. destruct (Hnot (Hall e Hin)).
Qed.

(** ** The scenarios of the specification, evaluated *)

Example scenario1_first_submit :
  series scenario1 [AlternativesEffect; Submit "A" "B" 4]
  = ([Silent;
      Returned {| NextStep.uid := "E2"; NextStep.refreshLeft := false |}],
     {| pending :=
          {| step := 1; dialogOpen := true; refreshLeft := true;
             alternatives := [E1; E2; E3]; comparisonsMade := ["A/B"] |};
        calls := [CallGetAlternatives;
                  CallSelectRandomEntity [E1; E2; E3] ["B"; "A"]] |}).
Proof. vm_compute. reflexivity. Qed.

Example scenario3_dialog :
  dialogOpen (pending (series scenario3
    [AlternativesEffect; Submit "A" "B" 4]).2) = true
  ∧ dialogOpen (pending (series scenario3
      [AlternativesEffect; Submit "A" "B" 4; CloseDialog]).2) = false
  ∧ dialogOpen (pending (series scenario3
      [AlternativesEffect; Submit "A" "B" 4; CloseDialog;
       Submit "A" "E2" 1]).2) = false.
Proof. vm_compute. auto. Qed.

Example scenario5_repeat :
  (series scenario5
     [AlternativesEffect; Submit "E1" "E2" 0; Submit "E1" "E2" 1]).1
  = [Silent;
     Returned {| NextStep.uid := "E1"; NextStep.refreshLeft := false |};
     Returned {| NextStep.uid := "E2"; NextStep.refreshLeft := true |}].
Proof. vm_compute. reflexivity. Qed.

Example alreadyComparedWith_history :
  entity.alreadyComparedWith "A" ["A/B"; "C/A"; "D/E"] = ["B"; "C"].
Proof. reflexivity. Qed.

Example overrun_submission :
  let w := (series scenario1
              [AlternativesEffect; Submit "A" "B" 0; Submit "A" "E1" 1;
               Submit "E2" "E1" 2]).2 in
  step (pending w) = 2%Z
  ∧ comparisonsMade (pending w) = ["A/B"; "A/E1"; "E2/E1"].
Proof. vm_compute. auto. Qed.

(** A negative length is below the step of the very first render: the
    bound of the step counter is one of lengths that are not negative. *)
Example negative_length :
  let props := {| dialogs := None; getAlternatives := None;
                  length := -1 |} in
  (length props < step (pending (series props []).2))%Z.
Proof. reflexivity. Qed.

(** ** The theorems at the scenarios *)

Lemma step_never_exceeds_length_witness :
  (0 <= length scenario1)%Z
  ∧ (step (pending (series scenario1
        [AlternativesEffect; Submit "A" "B" 0; Submit "A" "E1" 1;
         Submit "E2" "E1" 2]).2) <= length scenario1)%Z.
Proof.
  assert ((0 <= length scenario1)%Z) as Hlen by (cbn; lia).
  split; [exact Hlen|].
  exact (proj1 (step_never_exceeds_length entity.alreadyComparedWith
                  entity.selectRandomEntity scenario1 Hlen) _).
Defined.

Lemma refreshLeft_alternates_witness :
  refreshLeft (pending (series scenario1
    [AlternativesEffect; Submit "A" "B" 0; Submit "A" "E1" 1;
     Submit "E2" "E1" 2]).2) = true.
Proof.
  exact (proj2 (proj2 (refreshLeft_alternates entity.alreadyComparedWith
                         entity.selectRandomEntity selectRandomEntity_returns
                         scenario1)) _).
Defined.

Lemma empty_pool_skips_sampling_witness :
  Raised EmptyPoolError
  ∉ (series scenario2
       [AlternativesEffect; Submit "A" "B" 0; Submit "A" "B" 1]).1.
Proof.
  exact (proj2 (proj2 (empty_pool_skips_sampling entity.alreadyComparedWith
                         entity.selectRandomEntity selectRandomEntity_raises
                         scenario2)) _ mount).
Defined.

Lemma selectRandomEntity_falls_back_witness :
  [E1; E2] ≠ []
  ∧ ∃ e, entity.selectRandomEntity [E1; E2] ["E2"; "E1"] 3 = Return e
         ∧ e ∈ [E1; E2]
         ∧ ((∀ x, x ∈ [E1; E2] -> uid x ∈ ["E2"; "E1"]) ->
            [E1; E2] !! (3 mod List.length [E1; E2])%nat = Some e)
         ∧ ((∃ x, x ∈ [E1; E2] ∧ uid x ∉ ["E2"; "E1"]) ->
            uid e ∉ ["E2"; "E1"]).
Proof.
  assert ([E1; E2] ≠ []) as Hpool by discriminate.
  split; [exact Hpool|].
  exact (selectRandomEntity_falls_back [E1; E2] ["E2"; "E1"] 3 Hpool).
Defined.

Lemma dialogOpen_after_submit_witness :
  let w0 := (series scenario3 [AlternativesEffect; CloseDialog]).2 in
  let w1 := (handle entity.alreadyComparedWith entity.selectRandomEntity
               scenario3 w0 (Submit "A" "B" 4)).2 in
  dialogOpen (pending w0) = false
  ∧ dialogOpen (pending w1) = true
  ∧ (∀ d, dialogs scenario3 = Some d ->
          d !! pretty (step (pending w1) + 1)%Z = None)
  ∧ dialogOpen (pending
      (run entity.alreadyComparedWith entity.selectRandomEntity scenario3
         [CloseDialog; Submit "A" "E2" 1] w1).2) = false.
Proof.
  cbv zeta.
  pose proof (dialogOpen_after_submit entity.alreadyComparedWith
                entity.selectRandomEntity selectRandomEntity_returns
                scenario3) as [Hsubmit Hclosed].
  assert (∀ d, dialogs scenario3 = Some d ->
            d !! pretty
                   (step (pending
                      (handle entity.alreadyComparedWith
                         entity.selectRandomEntity scenario3
                         (series scenario3 [AlternativesEffect; CloseDialog]).2
                         (Submit "A" "B" 4)).2) + 1)%Z = None) as Hno.
  { intros d Hd. injection Hd as <-. vm_compute. reflexivity. }
  split; [vm_compute; reflexivity|]. split; [|split; [exact Hno|]].
  - rewrite Hsubmit. vm_compute. reflexivity.
  - exact (Hclosed _ "A" "E2" 1%nat Hno).
Defined.

Lemma fetch_failure_tolerated_witness :
  getAlternatives rejectedFetch = Some Rejects
  ∧ alternatives (pending (series rejectedFetch
      [Submit "A" "B" 0; AlternativesEffect; Submit "A" "B" 1]).2) = []
  ∧ Forall noSubstitution (series rejectedFetch
      [Submit "A" "B" 0; AlternativesEffect; Submit "A" "B" 1]).1.
Proof.
  assert (getAlternatives rejectedFetch = Some Rejects) as Hrej
    by reflexivity.
  split; [exact Hrej|].
  destruct (proj2 (fetch_failure_tolerated entity.alreadyComparedWith
                     entity.selectRandomEntity rejectedFetch)
              (or_intror Hrej)
              [Submit "A" "B" 0; AlternativesEffect; Submit "A" "B" 1])
    as (Hpool & Hout & _).
  split; [exact Hpool|exact Hout].
Defined.

Lemma short_series_unmanaged_witness :
  (length scenario4 < MIN_LENGTH)%Z
  ∧ render entity.alreadyComparedWith entity.selectRandomEntity scenario4
      initialState = [Comparison None]
  ∧ interact entity.alreadyComparedWith entity.selectRandomEntity scenario4
      [SubmitsComparison "A" "B" 0; ClosesDialog] mount
    = ([Silent; Silent], mount).
Proof.
  assert ((length scenario4 < MIN_LENGTH)%Z) as Hshort by reflexivity.
  split; [exact Hshort|].
  destruct (short_series_unmanaged entity.alreadyComparedWith
              entity.selectRandomEntity scenario4 Hshort) as [Hr Hi].
  split; [exact (Hr initialState)|].
  exact (Hi [SubmitsComparison "A" "B" 0; ClosesDialog] mount).
Defined.

Lemma no_collaborator_no_fetch_witness :
  getAlternatives noCollaborator = None
  ∧ calls (series noCollaborator
      [AlternativesEffect; Submit "A" "B" 0; Submit "A" "B" 1]).2 = []
  ∧ alternatives (pending (series noCollaborator
      [AlternativesEffect; Submit "A" "B" 0; Submit "A" "B" 1]).2) = []
  ∧ Forall noSubstitution (series noCollaborator
      [AlternativesEffect; Submit "A" "B" 0; Submit "A" "B" 1]).1.
Proof.
  assert (getAlternatives noCollaborator = None) as Hnone by reflexivity.
  split; [exact Hnone|].
  exact (no_collaborator_no_fetch entity.alreadyComparedWith
           entity.selectRandomEntity noCollaborator Hnone _).
Defined.

(** C7, as the specification states it, fails: without any dialog the
    state of a series starts with [dialogOpen] set. *)
Lemma initial_dialogOpen_not_iff_configured :
  ¬ (dialogOpen (pending mount) = true
     ↔ hasDialog (dialogs scenario1) 0 = true).
Proof.
  intros [Hopen _]. specialize (Hopen eq_refl). vm_compute in Hopen.
  discriminate.
Qed.

(** ** Further properties of the controller *)

Section SeriesFacts.

Variable alreadyComparedWith : string -> list string -> list string.
Variable selectRandomEntity :
  list Entity -> list string -> nat -> Outcome Entity.

Local Abbreviation handled := (handle alreadyComparedWith selectRandomEntity).
Local Abbreviation ran := (run alreadyComparedWith selectRandomEntity).
Local Abbreviation rendered :=
  (render alreadyComparedWith selectRandomEntity).

Local Abbreviation run_cons' :=
  (run_cons alreadyComparedWith selectRandomEntity).
Local Abbreviation handle_Submit' :=
  (handle_Submit alreadyComparedWith selectRandomEntity).

(** X1.  The history is the one before, followed by the keys of the submissions
    in their order: nothing is dropped, reordered or recorded twice, also
    when the sampler throws and beyond the length. *)
Theorem comparisonsMade_append_only props evs : ∀ w,
  comparisonsMade (pending (ran props evs w).2)
  = comparisonsMade (pending w) ++ keysOf evs.
Proof.
  induction evs as [|ev evs IH]; intros w.
  - cbn. by rewrite app_nil_r.
  - rewrite run_cons'. cbn [snd]. rewrite IH.
    destruct ev as [uidA uidB draw| |]; cbn [keysOf].
    + rewrite handle_Submit_comparisonsMade. by rewrite <- app_assoc.
    + reflexivity.
    + cbn [handle snd]. rewrite alternativesEffect_eq.
      by destruct (getAlternatives props) as [[[|e alts]|]|].
Qed.

(** X2.  The step after a series: the submissions advance it one by one up to
    the length and no further; a step already at or beyond the length stays
    where it is. *)
Theorem step_after_series props evs : ∀ w,
  step (pending (ran props evs w).2)
  = Z.max (step (pending w))
      (Z.min (step (pending w) + Z.of_nat (submissions evs)) (length props)).
Proof.
  induction evs as [|ev evs IH]; intros w.
  - cbn. lia.
  - rewrite run_cons'. cbn [snd]. rewrite IH.
    destruct ev as [uidA uidB draw| |]; cbn [submissions].
    + rewrite handle_Submit_step.
      destruct (Z.ltb_spec (step (pending w)) (length props)); lia.
    + reflexivity.
    + cbn [handle snd]. rewrite alternativesEffect_eq.
      by destruct (getAlternatives props) as [[[|e alts]|]|].
Qed.

Lemma handled_alternatives props w ev :
  alternatives (pending (handled props w ev).2)
  = match ev, getAlternatives props with
    | AlternativesEffect, Some (Resolves (e :: alts)) => e :: alts
    | _, _ => alternatives (pending w)
    end.
Proof.
  destruct ev as [uidA uidB draw| |].
  - rewrite handle_Submit'. cbv zeta.
    destruct (alternatives (pending w)) as [|e alts] eqn:E; cbn.
    + by rewrite E.
    + destruct (selectRandomEntity _ _ _); cbn; by rewrite E.
  - reflexivity.
  - cbn [handle snd]. rewrite alternativesEffect_eq.
    by destruct (getAlternatives props) as [[[|e alts]|]|].
Qed.

(** X3.  The pool of a series is the one before until the effect runs with a
    fetch that resolves to a sequence that is not empty, and that sequence
    from then on: no submission and no closing of the dialog changes it. *)
Theorem alternatives_after_series props evs : ∀ w,
  alternatives (pending (ran props evs w).2)
  = match getAlternatives props with
    | Some (Resolves (e :: alts)) =>
        if effectRuns evs then e :: alts else alternatives (pending w)
    | _ => alternatives (pending w)
    end.
Proof.
  induction evs as [|ev evs IH]; intros w.
  - cbn. by destruct (getAlternatives props) as [[[|e alts]|]|].
  - rewrite run_cons'. cbn [snd]. rewrite IH, handled_alternatives.
    destruct ev, (getAlternatives props) as [[[|e alts]|]|];
      cbn [effectRuns]; try reflexivity.
    by destruct (effectRuns evs).
Qed.

Lemma handled_sameButDialog props w1 w2 ev :
  sameButDialog w1 w2 ->
  (handled props w1 ev).1 = (handled props w2 ev).1
  ∧ sameButDialog (handled props w1 ev).2 (handled props w2 ev).2.
Proof.
  destruct w1 as [[s1 d1 r1 a1 c1] cs1], w2 as [[s2 d2 r2 a2 c2] cs2].
  unfold sameButDialog. cbn. intros (-> & -> & -> & -> & ->).
  destruct ev as [uidA uidB draw| |].
  - rewrite !handle_Submit'. unfold exclusion, keptUid. cbn.
    destruct a2 as [|e alts]; [by cbn|].
    by destruct (selectRandomEntity _ _ _).
  - by cbn.
  - cbn [handle fst snd]. rewrite !alternativesEffect_eq.
    by destruct (getAlternatives props) as [[[|e alts]|]|].
Qed.

Lemma handled_CloseDialog_sameButDialog props w :
  sameButDialog (handled props w CloseDialog).2 w.
Proof. by cbn. Qed.

Lemma ran_sameButDialog props evs : ∀ w1 w2,
  sameButDialog w1 w2 ->
  answers (ran props evs w1).1
  = answers (ran props (withoutCloseDialog evs) w2).1
  ∧ sameButDialog (ran props evs w1).2
      (ran props (withoutCloseDialog evs) w2).2.
Proof.
  induction evs as [|ev evs IH]; intros w1 w2 Hsame; [by cbn|].
  destruct (handled_sameButDialog props w1 w2 ev Hsame) as [Hout Hnext].
  destruct ev as [uidA uidB draw| |]; cbn [withoutCloseDialog].
  - rewrite !run_cons'. cbn [fst snd].
    destruct (IH _ _ Hnext) as [IHo IHs]. split; [|exact IHs].
    rewrite Hout.
    destruct ((handled props w2 (Submit uidA uidB draw)).1) eqn:E;
      cbn [answers]; [by rewrite IHo..|].
    revert E. rewrite handle_Submit'. cbv zeta.
    destruct (alternatives (pending w2)); [discriminate|].
    by destruct (selectRandomEntity _ _ _).
  - rewrite run_cons'. cbn [fst snd answers handle]. apply IH.
    destruct Hsame as (? & ? & ? & ? & ?). by repeat split.
  - rewrite !run_cons'. cbn [fst snd handle answers].
    by apply IH.
Qed.

(** X4.  The closings of the dialog bear on the dialog flag only: a series
    without them gives the same outputs to the submissions, the same calls
    to the collaborators, the same step, side, pool and history. *)
Theorem closeDialog_bears_on_dialog_only props evs w :
  answers (ran props evs w).1
  = answers (ran props (withoutCloseDialog evs) w).1
  ∧ sameButDialog (ran props evs w).2
      (ran props (withoutCloseDialog evs) w).2.
Proof. apply ran_sameButDialog. by repeat split. Qed.

Lemma handled_Submit_output props w uidA uidB draw :
  returnsOnNonEmpty selectRandomEntity ->
  ∃ uid', (handled props w (Submit uidA uidB draw)).1
          = Returned {| NextStep.uid := uid';
                        NextStep.refreshLeft := refreshLeft (pending w) |}.
Proof.
  intros Hsel. rewrite handle_Submit'. cbv zeta.
  destruct (alternatives (pending w)) as [|e alts]; [by eexists|].
  destruct (Hsel (e :: alts)
              (exclusion alreadyComparedWith (pending w) uidA uidB) draw)
    as [x Hx]; [discriminate|].
  rewrite Hx. by eexists.
Qed.

Local Abbreviation handled_Submit_pending' :=
  (handled_Submit_pending alreadyComparedWith selectRandomEntity).

(** X5.  The sides returned by the successive submissions alternate, from the
    side of the state the series starts in: right, left, right, ... from the
    mount.  The sampler is one that returns on a pool that is not empty. *)
Theorem returned_sides_alternate
    (Hsel : returnsOnNonEmpty selectRandomEntity) props evs : ∀ w,
  refreshSides (ran props evs w).1
  = alternating (refreshLeft (pending w)) (submissions evs).
Proof.
  induction evs as [|ev evs IH]; intros w; [reflexivity|].
  rewrite run_cons'. cbn [fst snd]. destruct ev as [uidA uidB draw| |].
  - destruct (handled_Submit_output props w uidA uidB draw Hsel) as [u Hu].
    rewrite Hu. cbn [refreshSides submissions alternating NextStep.refreshLeft].
    rewrite IH. by rewrite handled_Submit_pending'.
  - cbn [handle fst snd refreshSides submissions]. by rewrite IH.
  - cbn [handle fst snd refreshSides submissions]. rewrite IH.
    rewrite alternativesEffect_eq.
    by destruct (getAlternatives props) as [[[|e alts]|]|].
Qed.

(** X6.  A submission made below the length of a managed series, towards a step
    a dialog is configured for, makes the next render show that dialog,
    open, whatever the flag was before. *)
Theorem dialog_shown_after_submit
    (Hsel : returnsOnNonEmpty selectRandomEntity)
    props w uidA uidB draw (d : gmap string Dialog) dlg
    (Hlen : (MIN_LENGTH <= length props)%Z)
    (Hstep : (step (pending w) < length props)%Z)
    (Hdialogs : dialogs props = Some d)
    (Hdlg : d !! pretty (step (pending w) + 1)%Z = Some dlg) :
  rendered props (pending (handled props w (Submit uidA uidB draw)).2)
  = [DialogBox dlg true closeDialog;
     Stepper (step (pending w) + 1) (generateSteps (length props));
     Comparison
       (Some (afterSubmitCallback alreadyComparedWith selectRandomEntity
                props (submitted props (pending w) uidA uidB)))].
Proof.
  rewrite handled_Submit_pending' by exact Hsel.
  unfold render, submitted, hasDialog.
  cbn [step dialogOpen refreshLeft alternatives comparisonsMade].
  destruct (Z.leb_spec MIN_LENGTH (length props)); [|lia].
  destruct (Z.ltb_spec (step (pending w)) (length props)); [|lia].
  rewrite Hdialogs, Hdlg. rewrite bool_decide_eq_true_2 by eauto.
  reflexivity.
Qed.

Lemma samplings_app cs1 cs2 :
  samplings (cs1 ++ cs2) = (samplings cs1 + samplings cs2)%nat.
Proof.
  induction cs1 as [|[|pool excluded] cs1 IH]; cbn; [done|done|].
  by rewrite IH.
Qed.

(** X7.  With a pool that is not empty every submission calls the sampler
    exactly once, also beyond the length, and nothing else calls it. *)
Theorem one_sampling_per_submission props evs : ∀ w,
  alternatives (pending w) ≠ [] ->
  samplings (calls (ran props evs w).2)
  = (samplings (calls w) + submissions evs)%nat.
Proof.
  induction evs as [|ev evs IH]; intros w Hpool; [cbn; lia|].
  rewrite run_cons'. cbn [snd]. rewrite IH.
  - destruct ev as [uidA uidB draw| |]; cbn [submissions].
    + rewrite handle_Submit'. cbv zeta.
      destruct (alternatives (pending w)) as [|e alts]; [done|].
      destruct (selectRandomEntity _ _ _); cbn [snd calls];
        rewrite samplings_app; cbn; lia.
    + reflexivity.
    + cbn [handle snd]. rewrite alternativesEffect_eq.
      destruct (getAlternatives props); [|done].
      cbn [calls]. rewrite samplings_app. cbn. lia.
  - rewrite handled_alternatives.
    by destruct ev, (getAlternatives props) as [[[|e alts]|]|].
Qed.

End SeriesFacts.

(** ** The steps of the stepper *)

(** X8.  [generateSteps] makes one step per unit of the length, none for a length
    that is not positive; the first step, and only it, is labelled
    [start]; the last step, and only it, is labelled [end!] (a single step
    carries both). *)
Theorem generateSteps_labels (len : Z) :
  List.length (generateSteps len) = Z.to_nat len
  ∧ ∀ (i : nat) (labels : list string),
      generateSteps len !! i = Some labels ->
      ("start" ∈ labels ↔ i = 0%nat)
      ∧ ("end!" ∈ labels ↔ Z.of_nat i = (len - 1)%Z).
Proof.
  unfold generateSteps. split.
  - by rewrite length_fmap, length_seqZ.
  - intros i labels. rewrite list_lookup_fmap.
    destruct (seqZ 0 len !! i) as [x|] eqn:Hx; [|discriminate].
    apply lookup_seqZ in Hx as [-> Hlt]. cbn. intros [= <-].
    destruct (Z.eqb_spec (0 + Z.of_nat i) 0) as [H0|H0],
      (Z.eqb_spec (0 + Z.of_nat i) (len - 1)) as [Hl|Hl]; cbn;
      rewrite ?elem_of_cons, ?elem_of_nil;
      (split; split; intros H);
      first [ by auto | lia | exfalso; lia
            | repeat (destruct H as [H|H]); first [discriminate | done] ].
Qed.

(** ** The key of a pair *)

(** X9.  For uids without slash the key of a pair determines the pair. *)
Theorem pairKey_inj uidA uidB uidA' uidB'
    (HA : slashFree uidA = true) (HA' : slashFree uidA' = true) :
  pairKey uidA uidB = pairKey uidA' uidB' -> uidA = uidA' ∧ uidB = uidB'.
Proof.
  unfold pairKey. revert uidA' HA HA'.
  induction uidA as [|c uidA IH]; intros [|c' uidA'] HA HA'; cbn;
    intros Hkey.
  - injection Hkey as Hrest. by subst.
  - injection Hkey as Hc Hrest. subst c'. cbn in HA'. discriminate.
  - injection Hkey as Hc Hrest. subst c. cbn in HA. discriminate.
  - injection Hkey as Hc Hrest. subst c'. cbn in HA, HA'.
    apply andb_true_iff in HA as [_ HA], HA' as [_ HA'].
    by destruct (IH uidA' HA HA' Hrest) as [-> ->].
Qed.

(** With a slash in a uid two pairs can share their key. *)
Example pairKey_ambiguous : pairKey "a/b" "c" = pairKey "a" "b/c".
Proof. reflexivity. Qed.

(** ** The slider of a criterion *)

(** X11.  On integers of the exact range (magnitude at most [2 ^ 52]),
    [computeMedian] returns an integer exactly when the step is not zero
    and some integer [m] has [2 * m * step = max - min], and then returns
    that [m]: the mark of index [m] from [min] is the middle of the range. *)
Theorem computeMedian_middle (min max step m : Z)
    (Hmin : CriteriaSlider.exactOperand min = true)
    (Hmax : CriteriaSlider.exactOperand max = true)
    (Hstep : CriteriaSlider.exactOperand step = true) :
  CriteriaSlider.computeMedian min max step = CriteriaSlider.Mark m
  ↔ step ≠ 0%Z ∧ (2 * (min + m * step) = min + max)%Z.
Proof.
  unfold CriteriaSlider.computeMedian. rewrite Hmin, Hmax, Hstep.
  cbn [andb].
  destruct (Z.eqb_spec (2 * step) 0) as [Hz|Hz]; cbn [negb andb].
  - split; [discriminate|]. intros [Hnz _]. lia.
  - destruct (Z.eqb_spec ((max - min) mod (2 * step)) 0) as [Hm|Hm].
    + apply Z.div_exact in Hm; [|exact Hz]. split.
      * intros [= <-]. split; [lia|]. nia.
      * intros [_ Hmid]. f_equal.
        symmetry. apply Z.div_unique_exact; [exact Hz|lia].
    + split; [discriminate|]. intros [_ Hmid]. exfalso. apply Hm.
      apply Z.mod_divide; [exact Hz|]. exists m. lia.
Qed.

(** The neutral position of the slider of the component is the mark of the
    score 0. *)
Example neutralPos_is_zero_mark :
  CriteriaSlider.neutralPos = CriteriaSlider.Mark 10
  ∧ (CriteriaSlider.SLIDER_MIN_STEP + 10 * CriteriaSlider.SLIDER_STEP = 0)%Z.
Proof. split; reflexivity. Qed.

(** Beyond the exact range the model says nothing of the number returned. *)
Example computeMedian_beyond_exact_range :
  CriteriaSlider.computeMedian (-1) (2 ^ 53) 1 = CriteriaSlider.Rounded.
Proof. reflexivity. Qed.

(** X12.  The checkbox of a criterion, followed by the render of the value it
    passes to [handleSliderChange] under the name of the criterion.
    Unchecking skips the criterion: the slider is disabled, the chip is
    shown and an unchecked checkbox stays, optional criterion or not.
    Checking brings the slider back at the score 0, whatever the score was
    before, and leaves a checkbox only to an optional criterion. *)
Theorem checkbox_then_render criteriaByName p (targetChecked : bool) :
  let call := CriteriaSlider.checkboxOnChange p targetChecked in
  let view :=
    CriteriaSlider.render criteriaByName
      (CriteriaSlider.withValue p call.2) in
  call.1 = CriteriaSlider.criteria p
  ∧ CriteriaSlider.value (CriteriaSlider.slider view) = 0%Z
  ∧ CriteriaSlider.sliderDisabled (CriteriaSlider.slider view)
    = CriteriaSlider.disabled p || negb targetChecked
  ∧ CriteriaSlider.skippedChip view = negb targetChecked
  ∧ CriteriaSlider.checkbox view
    = if negb targetChecked
         || CriteriaSlider.isOptional criteriaByName (CriteriaSlider.criteria p)
      then Some {| CriteriaSlider.checked := targetChecked;
                   CriteriaSlider.checkboxDisabled :=
                     CriteriaSlider.disabled p |}
      else None.
Proof.
  cbv zeta. unfold CriteriaSlider.render, CriteriaSlider.checkboxOnChange,
    CriteriaSlider.withValue. cbn.
  destruct targetChecked; cbn;
    destruct (CriteriaSlider.isOptional _ _); cbn; by rewrite ?orb_true_r.
Qed.

(** X13.  The slider of a criterion, followed by the render of the score it
    passes to [handleSliderChange]: the slider shows that score, the score 0
    included, the chip is hidden, and the criterion cannot be skipped from
    there unless it is optional. *)
Theorem slider_then_render criteriaByName p (score : Z) :
  let call := CriteriaSlider.sliderOnChange p score in
  let view :=
    CriteriaSlider.render criteriaByName
      (CriteriaSlider.withValue p call.2) in
  call.1 = CriteriaSlider.criteria p
  ∧ CriteriaSlider.value (CriteriaSlider.slider view) = score
  ∧ CriteriaSlider.sliderDisabled (CriteriaSlider.slider view)
    = CriteriaSlider.disabled p
  ∧ CriteriaSlider.skippedChip view = false
  ∧ (CriteriaSlider.checkbox view = None
     ↔ CriteriaSlider.isOptional criteriaByName (CriteriaSlider.criteria p)
       = false).
Proof.
  cbv zeta. unfold CriteriaSlider.render, CriteriaSlider.sliderOnChange,
    CriteriaSlider.withValue. cbn.
  split; [reflexivity|]. split.
  - destruct (Z.eqb_spec score 0); [by subst|reflexivity].
  - split; [by rewrite orb_false_r|]. split; [reflexivity|].
    rewrite orb_false_r. by destruct (CriteriaSlider.isOptional _ _).
Qed.

(** ** The overlay of the duration *)

(** X14.  The overlay of the duration is rendered exactly before the first click,
    for a duration that is present and not 0 and whose clock text is not
    empty; it then shows that text.  No click brings it back. *)
Theorem overlay_shown_iff (clock : Z -> string) (n : nat)
    (duration : option Z) (text : string) :
  PlayerWrapper.overlay clock (PlayerWrapper.afterClicks n) duration
  = Some text
  ↔ n = 0%nat
    ∧ ∃ d, duration = Some d ∧ d ≠ 0%Z ∧ clock d = text ∧ text ≠ "".
Proof.
  unfold PlayerWrapper.overlay, PlayerWrapper.formattedDuration.
  destruct n as [|n]; cbn.
  - destruct duration as [d|].
    + destruct (Z.eqb_spec d 0) as [Hd|Hd].
      * split; [discriminate|]. intros [_ (d' & [= <-] & Hne & _)]. done.
      * destruct (String.eqb_spec (clock d) "") as [He|He].
        -- split; [discriminate|].
           intros [_ (d' & [= <-] & _ & <- & Hne)]. done.
        -- split.
           ++ intros [= <-]. split; [done|]. by exists d.
           ++ intros [_ (d' & [= <-] & _ & <- & _)]. done.
    + split; [discriminate|]. intros [_ (d' & Hd & _)]. discriminate.
  - split; [discriminate|]. intros [Hn _]. discriminate.
Qed.

(** ** The further theorems at the scenarios *)

Lemma returned_sides_alternate_witness :
  refreshSides (series scenario1
    [AlternativesEffect; Submit "A" "B" 0; CloseDialog; Submit "A" "E1" 1;
     Submit "E2" "E1" 2]).1
  = [false; true; false].
Proof.
  exact (returned_sides_alternate entity.alreadyComparedWith
           entity.selectRandomEntity selectRandomEntity_returns scenario1
           [AlternativesEffect; Submit "A" "B" 0; CloseDialog;
            Submit "A" "E1" 1; Submit "E2" "E1" 2] mount).
Defined.

Lemma dialog_shown_after_submit_witness :
  render entity.alreadyComparedWith entity.selectRandomEntity scenario3
    (pending (handle entity.alreadyComparedWith entity.selectRandomEntity
                scenario3 mount (Submit "A" "B" 0)).2)
  = [DialogBox welcome true closeDialog;
     Stepper 1 (generateSteps 3);
     Comparison
       (Some (afterSubmitCallback entity.alreadyComparedWith
                entity.selectRandomEntity scenario3
                (submitted scenario3 initialState "A" "B")))].
Proof.
  assert ((MIN_LENGTH <= length scenario3)%Z) as Hlen by discriminate.
  assert ((step (pending mount) < length scenario3)%Z) as Hstep
    by reflexivity.
  assert (dialogs scenario3 = Some {[ "1" := welcome ]}) as Hdialogs
    by reflexivity.
  assert (({[ "1" := welcome ]} : gmap string Dialog)
            !! pretty (step (pending mount) + 1)%Z = Some welcome) as Hdlg
    by (vm_compute; reflexivity).
  exact (dialog_shown_after_submit entity.alreadyComparedWith
           entity.selectRandomEntity selectRandomEntity_returns scenario3
           mount "A" "B" 0%nat _ welcome Hlen Hstep Hdialogs Hdlg).
Defined.

Lemma one_sampling_per_submission_witness :
  let w := (series scenario1 [AlternativesEffect]).2 in
  alternatives (pending w) ≠ []
  ∧ samplings (calls (run entity.alreadyComparedWith
                        entity.selectRandomEntity scenario1
                        [Submit "A" "B" 0; CloseDialog; Submit "A" "E1" 1;
                         Submit "E2" "E1" 2] w).2)
    = 3%nat.
Proof.
  cbv zeta.
  assert (alternatives (pending (series scenario1 [AlternativesEffect]).2)
          ≠ []) as Hpool by (vm_compute; discriminate).
  split; [exact Hpool|].
  exact (one_sampling_per_submission entity.alreadyComparedWith
           entity.selectRandomEntity scenario1
           [Submit "A" "B" 0; CloseDialog; Submit "A" "E1" 1;
            Submit "E2" "E1" 2] _ Hpool).
Defined.

Lemma generateSteps_labels_witness :
  generateSteps 3 !! 2%nat = Some ["end!"]
  ∧ ("start" ∈ ["end!"] ↔ 2%nat = 0%nat)
  ∧ ("end!" ∈ ["end!"] ↔ Z.of_nat 2 = (3 - 1)%Z).
Proof.
  assert (generateSteps 3 !! 2%nat = Some ["end!"]) as Hstep
    by (vm_compute; reflexivity).
  split; [exact Hstep|].
  exact (proj2 (generateSteps_labels 3) 2%nat ["end!"] Hstep).
Defined.

Lemma pairKey_inj_witness :
  slashFree "yt:abc" = true ∧ slashFree "yt:abc" = true
  ∧ (pairKey "yt:abc" "yt:d/e" = pairKey "yt:abc" "yt:d/e" ->
     "yt:abc" = "yt:abc" ∧ "yt:d/e" = "yt:d/e").
Proof.
  assert (slashFree "yt:abc" = true) as HA by reflexivity.
  split; [exact HA|]. split; [exact HA|].
  exact (pairKey_inj "yt:abc" "yt:d/e" "yt:abc" "yt:d/e" HA HA).
Defined.

(** ** Two calls of the callback of one render *)

Section OneRender.

Variable alreadyComparedWith : string -> list string -> list string.
Variable selectRandomEntity :
  list Entity -> list string -> nat -> Outcome Entity.

Local Abbreviation callback :=
  (afterSubmitCallback alreadyComparedWith selectRandomEntity).

Lemma callback_pending props st uidA uidB draw w :
  step (pending (callback props st uidA uidB draw w).2)
  = (if (step st <? length props)%Z
     then (step st + 1)%Z else step (pending w))
  ∧ comparisonsMade (pending (callback props st uidA uidB draw w).2)
    = comparisonsMade st ++ [pairKey uidA uidB].
Proof.
  unfold pairKey. unfold_handler.
  destruct (alternatives st) as [|e alts]; cbn [List.length Nat.ltb Nat.leb].
  - destruct (step st <? length props)%Z,
      (hasDialog (dialogs props) (step st + 1)); split; reflexivity.
  - destruct (step st <? length props)%Z; cbn;
      destruct (selectRandomEntity _ _ _); cbn;
      destruct (hasDialog (dialogs props) (step st + 1)); split; reflexivity.
Qed.

(** X10.  The callback writes what it computes from the state of its own render:
    called twice before the next render, it advances the step once only and
    leaves in the history the pair of the second call without the pair of
    the first. *)
Theorem second_call_overwrites props st uidA uidB draw uidA' uidB' draw' w :
  let w1 := (callback props st uidA uidB draw w).2 in
  let w2 := (callback props st uidA' uidB' draw' w1).2 in
  step (pending w2) = step (pending w1)
  ∧ comparisonsMade (pending w2)
    = comparisonsMade st ++ [pairKey uidA' uidB'].
Proof.
  cbv zeta.
  destruct (callback_pending props st uidA' uidB' draw'
              (callback props st uidA uidB draw w).2) as [Hs Hc].
  destruct (callback_pending props st uidA uidB draw w) as [Hs1 _].
  split; [|exact Hc]. rewrite Hs, Hs1.
  by destruct (step st <? length props)%Z.
Qed.

End OneRender.

Lemma computeMedian_middle_witness :
  CriteriaSlider.exactOperand CriteriaSlider.SLIDER_MIN_STEP = true
  ∧ CriteriaSlider.exactOperand CriteriaSlider.SLIDER_MAX_STEP = true
  ∧ CriteriaSlider.exactOperand CriteriaSlider.SLIDER_STEP = true
  ∧ CriteriaSlider.computeMedian CriteriaSlider.SLIDER_MIN_STEP
      CriteriaSlider.SLIDER_MAX_STEP CriteriaSlider.SLIDER_STEP
    = CriteriaSlider.Mark 10.
Proof.
  assert (CriteriaSlider.exactOperand CriteriaSlider.SLIDER_MIN_STEP = true)
    as Hmin by reflexivity.
  assert (CriteriaSlider.exactOperand CriteriaSlider.SLIDER_MAX_STEP = true)
    as Hmax by reflexivity.
  assert (CriteriaSlider.exactOperand CriteriaSlider.SLIDER_STEP = true)
    as Hstep by reflexivity.
  split; [exact Hmin|]. split; [exact Hmax|]. split; [exact Hstep|].
  apply (computeMedian_middle CriteriaSlider.SLIDER_MIN_STEP
           CriteriaSlider.SLIDER_MAX_STEP CriteriaSlider.SLIDER_STEP 10
           Hmin Hmax Hstep).
  split; [discriminate|reflexivity].
Defined.
